(** * waypoint_maker: a shallow embedding of src/waypoint_maker.cpp

    The ROS node [WaypointMaker] records waypoints: gamepad ([sensor_msgs/Joy])
    messages are turned into velocity commands, button 2 raises a save flag, and
    the main loop, once per cycle, appends the current pose to a CSV file and
    publishes an arrow marker.

    Modelling choices:
    - [double] is Rocq's primitive binary64 [float]; the [float32] fields of the
      ROS messages (Joy axes, marker colour) are held as the doubles they widen
      to, which is exact.
    - [int] is [Z]; an operation whose C++ behaviour is undefined (signed
      overflow of [waypoint_id_++], [std::vector::operator[]] out of range)
      makes the whole execution [None].
    - Publications and log lines are recorded, in order, in an output trace; the
      CSV file is its contents and whether the [std::ofstream] open succeeds.
    - [atan2] from <cmath> is a parameter of the model. *)

From Stdlib Require Import ZArith String Ascii List Floats Bool Lia Sorted.
Import ListNotations.

Open Scope Z_scope.
#[local] Set Warnings "-inexact-float".

(** ** Decimal text *)

Definition digit_char (d : Z) : ascii := ascii_of_nat (48 + Z.to_nat d).

Fixpoint dec_digits (fuel : nat) (n : Z) (acc : string) : string :=
  match fuel with
  | O => acc
  | S f =>
      let acc' := String (digit_char (n mod 10)) acc in
      if n <? 10 then acc' else dec_digits f (n / 10) acc'
  end.

(** Decimal digits of a non-negative integer. *)
Definition dec_string (n : Z) : string :=
  dec_digits (S (Z.to_nat (Z.log2 n))) n EmptyString.

Definition pad_left (k : nat) (s : string) : string :=
  append (string_of_list_ascii (repeat "0"%char (k - String.length s))) s.

Definition strip_trailing_zeros (s : string) : string :=
  let fix drop (l : list ascii) : list ascii :=
    match l with
    | ("0"%char) :: l' => drop l'
    | _ => l
    end in
  string_of_list_ascii (rev (drop (rev (list_ascii_of_string s)))).

(** ** [operator<<(std::ostream&, double)] under the default stream flags

    An [std::ofstream] starts with no [floatfield] flag and precision 6, so a
    double is written as by printf's [%g] with precision 6: rounded (to nearest,
    ties to even, on the exact binary value) to 6 significant digits, in fixed
    notation when the decimal exponent X satisfies -4 <= X < 6 and in
    scientific notation otherwise, with trailing zeros of the fraction and a
    bare decimal point removed. *)

Definition stream_precision : Z := 6.

(** The finite value [m * 2^e] as a fraction [num / den]. *)
Definition frac_of (m : positive) (e : Z) : Z * Z :=
  if 0 <=? e then (Zpos m * 2 ^ e, 1) else (Zpos m, 2 ^ (- e)).

(** [num / den >= 10^k]. *)
Definition ge_pow10 (num den k : Z) : bool :=
  if 0 <=? k then den * 10 ^ k <=? num else den <=? num * 10 ^ (- k).

Definition ndigits (n : Z) : Z := Z.of_nat (String.length (dec_string n)).

(** The decimal exponent [floor (log10 (num / den))]. *)
Definition exp10 (num den : Z) : Z :=
  let k := ndigits num - ndigits den in
  if ge_pow10 num den k then k else k - 1.

Definition round_half_even (q r : Z) : Z :=
  let n := q / r in
  match Z.compare (2 * (q mod r)) r with
  | Lt => n
  | Gt => n + 1
  | Eq => if Z.even n then n else n + 1
  end.

(** The 6 significant digits [N] and the exponent [X] of [num / den],
    [10^5 <= N < 10^6]. *)
Definition round_sig (num den : Z) : Z * Z :=
  let X := exp10 num den in
  let k := stream_precision - 1 - X in
  let N := if 0 <=? k then round_half_even (num * 10 ^ k) den
           else round_half_even num (den * 10 ^ (- k)) in
  if N =? 10 ^ stream_precision then (10 ^ (stream_precision - 1), X + 1)
  else (N, X).

Definition with_fraction (ip : string) (fs : string) : string :=
  if String.eqb fs EmptyString then ip else append ip (append "." fs).

Definition fixed_text (N X : Z) : string :=
  let F := stream_precision - 1 - X in
  with_fraction (dec_string (N / 10 ^ F))
    (strip_trailing_zeros (pad_left (Z.to_nat F) (dec_string (N mod 10 ^ F)))).

Definition scientific_text (N X : Z) : string :=
  let F := stream_precision - 1 in
  append
    (with_fraction (dec_string (N / 10 ^ F))
       (strip_trailing_zeros (pad_left (Z.to_nat F) (dec_string (N mod 10 ^ F)))))
    (append (if X <? 0 then "e-" else "e+") (pad_left 2 (dec_string (Z.abs X)))).

Definition ostream_double (f : float) : string :=
  match Prim2SF f with
  | S754_zero s => if s then "-0" else "0"
  | S754_infinity s => if s then "-inf" else "inf"
  | S754_nan => "nan"
  | S754_finite s m e =>
      let '(num, den) := frac_of m e in
      let '(N, X) := round_sig num den in
      append (if s then "-" else "")
        (if (X <? stream_precision) && (-4 <=? X) then fixed_text N X
         else scientific_text N X)
  end.

(** ** [atan2] on concrete inputs

    A reference [atan2] to run the model on concrete inputs: the special values
    of C99 Annex F (F.10.1.4) exactly, and elsewhere the principal value of
    [atan (y / x)], corrected by quadrant, from an argument-halved series. The
    theorems below hold for every [atan2], or for every [atan2] with the Annex F
    value at [y = +0, x > 0]; this one only instantiates them. *)

Definition pi_f : float := 3.141592653589793%float.

Fixpoint atan_series (n : nat) (t t2 term : float) (k : float) (sgn : bool) : float :=
  match n with
  | O => 0%float
  | S n' =>
      let here := (term / k)%float in
      let rest := atan_series n' t t2 (term * t2)%float (k + 2)%float (negb sgn) in
      if sgn then (rest - here)%float else (here + rest)%float
  end.

(** [atan] on [0 <= t <= 1], halving the argument twice. *)
Definition atan_unit (t : float) : float :=
  let half u := (u / (1 + PrimFloat.sqrt (1 + u * u)))%float in
  let u := half (half t) in
  (4 * atan_series 12 u (u * u) u 1 false)%float.

Definition atan_nonneg (t : float) : float :=
  if PrimFloat.leb t 1 then atan_unit t
  else (pi_f / 2 - atan_unit (1 / t))%float.

Definition atan2_ref (y x : float) : float :=
  match Prim2SF y, Prim2SF x with
  | S754_nan, _ | _, S754_nan => nan
  | S754_zero sy, S754_zero sx | S754_zero sy, S754_finite sx _ _
  | S754_zero sy, S754_infinity sx =>
      if sx then (if sy then - pi_f else pi_f)%float else y
  | S754_finite sy _ _, S754_zero _ => if sy then (- (pi_f / 2))%float else (pi_f / 2)%float
  | S754_infinity sy, S754_infinity sx =>
      let v := if sx then (3 * pi_f / 4)%float else (pi_f / 4)%float in
      if sy then (- v)%float else v
  | S754_infinity sy, _ => if sy then (- (pi_f / 2))%float else (pi_f / 2)%float
  | S754_finite sy _ _, S754_infinity sx =>
      if sx then (if sy then - pi_f else pi_f)%float else (if sy then -0 else 0)%float
  | S754_finite sy _ _, S754_finite sx _ _ =>
      let a := atan_nonneg (PrimFloat.abs y / PrimFloat.abs x)%float in
      let a := if sx then (pi_f - a)%float else a in
      if sy then (- a)%float else a
  end.

(** ** ROS messages (the fields the node reads or writes) *)

Module Point.
Record t := mk { x : float; y : float; z : float }.
End Point.

Module Quaternion.
Record t := mk { x : float; y : float; z : float; w : float }.
End Quaternion.

(** [geometry_msgs/Pose]; a default-constructed message is all zeros. *)
Module Pose.
Record t := mk { position : Point.t; orientation : Quaternion.t }.
Definition zero : t := mk (Point.mk 0 0 0) (Quaternion.mk 0 0 0 0).
End Pose.

Module Vector3.
Record t := mk { x : float; y : float; z : float }.
Definition zero : t := mk 0 0 0.
End Vector3.

Module Twist.
Record t := mk { linear : Vector3.t; angular : Vector3.t }.
Definition zero : t := mk Vector3.zero Vector3.zero.
End Twist.

(** [sensor_msgs/Joy]: [int32[] buttons], [float32[] axes]. *)
Module Joy.
Record t := mk { buttons : list Z; axes : list float }.
End Joy.

(** [geometry_msgs/PoseWithCovarianceStamped]; the node reads [pose.pose]. *)
Module PoseWithCovarianceStamped.
Record t := mk { pose : Pose.t; covariance : list float }.
End PoseWithCovarianceStamped.

Module Time.
Record t := mk { sec : Z; nsec : Z }.
End Time.

Module ColorRGBA.
Record t := mk { r : float; g : float; b : float; a : float }.
End ColorRGBA.

(** [visualization_msgs/Marker], with the fields [createArrowMarker] sets. *)
Module Marker.
Definition ARROW : Z := 0.
Definition ADD : Z := 0.
Record t := mk {
  frame_id : string;
  stamp : Time.t;
  ns : string;
  id : Z;
  type : Z;
  action : Z;
  pose : Pose.t;
  scale : Vector3.t;
  color : ColorRGBA.t }.
End Marker.

(** ** The node [WaypointMaker] *)

Definition INT_MAX : Z := 2 ^ 31 - 1.

(** [n++] on an [int]: undefined at [INT_MAX]. *)
Definition int_incr (n : Z) : option Z :=
  if n <? INT_MAX then Some (n + 1) else None.

Notation "'let*' x := e1 'in' e2" :=
  (match e1 with Some x => e2 | None => None end)
  (at level 200, x name, e1 at level 100, e2 at level 200).

(** What the node publishes and logs; a log line keeps its format string and
    its [%f] arguments. *)
Inductive Output :=
  | Publish_cmd_vel (twist : Twist.t)
  | Publish_marker (marker : Marker.t)
  | ROS_INFO (fmt : string) (args : list float)
  | ROS_ERROR (fmt : string).

(** The CSV file at [csv_file_path_]: whether [std::ofstream(path, app)]
    opens it, and its contents. *)
Module CsvFile.
Record t := mk { opens : bool; contents : string }.
End CsvFile.

Record WaypointMaker := mkWaypointMaker {
  current_pose_ : Pose.t;
  save_waypoint_ : bool;
  csv_file_path_ : string;
  waypoint_id_ : Z;
  csv_file : CsvFile.t;
  outputs : list Output }.

Definition set_current_pose (p : Pose.t) (s : WaypointMaker) : WaypointMaker :=
  mkWaypointMaker p (save_waypoint_ s) (csv_file_path_ s) (waypoint_id_ s)
    (csv_file s) (outputs s).
Definition set_save_waypoint (b : bool) (s : WaypointMaker) : WaypointMaker :=
  mkWaypointMaker (current_pose_ s) b (csv_file_path_ s) (waypoint_id_ s)
    (csv_file s) (outputs s).
Definition set_waypoint_id (n : Z) (s : WaypointMaker) : WaypointMaker :=
  mkWaypointMaker (current_pose_ s) (save_waypoint_ s) (csv_file_path_ s) n
    (csv_file s) (outputs s).
Definition set_csv_file (f : CsvFile.t) (s : WaypointMaker) : WaypointMaker :=
  mkWaypointMaker (current_pose_ s) (save_waypoint_ s) (csv_file_path_ s)
    (waypoint_id_ s) f (outputs s).
Definition emit (o : Output) (s : WaypointMaker) : WaypointMaker :=
  mkWaypointMaker (current_pose_ s) (save_waypoint_ s) (csv_file_path_ s)
    (waypoint_id_ s) (csv_file s) (outputs s ++ [o]).

(** The constructor: the pose is a default [geometry_msgs::Pose] (all zero)
    with [position.x], [position.y], [orientation.z] set to 0 and
    [orientation.w] to 1; [csv] is the file found on disk. *)
Definition WaypointMaker_new (csv : CsvFile.t) : WaypointMaker :=
  {| current_pose_ :=
       Pose.mk (Point.mk 0 0 (Point.z (Pose.position Pose.zero)))
               (Quaternion.mk (Quaternion.x (Pose.orientation Pose.zero))
                              (Quaternion.y (Pose.orientation Pose.zero)) 0 1);
     save_waypoint_ := false;
     csv_file_path_ := "/home/yamaguchi-a/catkin_ws/src/waypoint_maker/csv/waypoints.csv";
     waypoint_id_ := 0;
     csv_file := csv;
     outputs := [] |}.

Definition joyCallback (joy_msg : Joy.t) (s : WaypointMaker) : option WaypointMaker :=
  let* b2 := nth_error (Joy.buttons joy_msg) 2 in
  let s := if b2 =? 1 then set_save_waypoint true s else s in
  let* a3 := nth_error (Joy.axes joy_msg) 3 in
  let* a0 := nth_error (Joy.axes joy_msg) 0 in
  let twist := Twist.mk (Vector3.mk a3 (Vector3.y (Twist.linear Twist.zero))
                                       (Vector3.z (Twist.linear Twist.zero)))
                        (Vector3.mk (Vector3.x (Twist.angular Twist.zero))
                                    (Vector3.y (Twist.angular Twist.zero)) a0) in
  Some (emit (Publish_cmd_vel twist) s).

Definition amclPoseCallback (msg : PoseWithCovarianceStamped.t) (s : WaypointMaker)
  : WaypointMaker :=
  let s := set_current_pose (PoseWithCovarianceStamped.pose msg) s in
  let p := current_pose_ s in
  let s := emit (ROS_INFO "Position: x = %f, y = %f"
                   [Point.x (Pose.position p); Point.y (Pose.position p)]) s in
  emit (ROS_INFO "Orientation: z = %f, w = %f"
          [Quaternion.z (Pose.orientation p); Quaternion.w (Pose.orientation p)]) s.

(** A queued callback. *)
Inductive Callback :=
  | JoyMsg (m : Joy.t)
  | AmclPoseMsg (m : PoseWithCovarianceStamped.t).

Definition callback (c : Callback) (s : WaypointMaker) : option WaypointMaker :=
  match c with
  | JoyMsg m => joyCallback m s
  | AmclPoseMsg m => Some (amclPoseCallback m s)
  end.

(** [ros::spinOnce()]: the queued callbacks, in order, on the loop's thread. *)
Fixpoint spinOnce (inbox : list Callback) (s : WaypointMaker) : option WaypointMaker :=
  match inbox with
  | [] => Some s
  | c :: rest => let* s := callback c s in spinOnce rest s
  end.

Definition newline : string := String (ascii_of_nat 10) EmptyString.

(** [file << x << "," << y << "," << yaw << "\n"]. *)
Definition csv_line (x y yaw : float) : string :=
  append (ostream_double x)
    (append "," (append (ostream_double y)
      (append "," (append (ostream_double yaw) newline)))).

(** [ros::Time::now()] is read from the clock value [now] of the cycle. *)
Definition createArrowMarker (id : Z) (pose : Pose.t) (now : Time.t) : Marker.t :=
  {| Marker.frame_id := "map";
     Marker.stamp := now;
     Marker.ns := "waypoints";
     Marker.id := id;
     Marker.type := Marker.ARROW;
     Marker.action := Marker.ADD;
     Marker.pose := pose;
     Marker.scale := Vector3.mk 0.3 0.1 0.0;
     Marker.color := ColorRGBA.mk 1.0 0.0 0.0 1.0 |}.

Section Node.

Variable atan2 : float -> float -> float.

Definition saveWaypointToCSV (pose : Pose.t) (s : WaypointMaker) : WaypointMaker :=
  let file := csv_file s in
  if CsvFile.opens file then
    let qz := Quaternion.z (Pose.orientation pose) in
    let qw := Quaternion.w (Pose.orientation pose) in
    let yaw := atan2 (2.0 * (qw * qz))%float (1.0 - 2.0 * (qz * qz))%float in
    let x := Point.x (Pose.position pose) in
    let y := Point.y (Pose.position pose) in
    let s := set_csv_file
               (CsvFile.mk (CsvFile.opens file)
                  (append (CsvFile.contents file) (csv_line x y yaw))) s in
    emit (ROS_INFO "ウェイポイントを保存しました: [%f, %f, %f]" [x; y; yaw]) s
  else emit (ROS_ERROR "CSVファイルを開けませんでした") s.

(** One iteration of the [while (ros::ok())] loop of [run()]; the
    [rate.sleep()] that ends it has no effect on the state. *)
Definition run_once (now : Time.t) (inbox : list Callback) (s : WaypointMaker)
  : option WaypointMaker :=
  let* s := spinOnce inbox s in
  if save_waypoint_ s then
    let p := current_pose_ s in
    let s := emit (ROS_INFO "現在位置: x = %f, y = %f"
                     [Point.x (Pose.position p); Point.y (Pose.position p)]) s in
    let s := saveWaypointToCSV (current_pose_ s) s in
    let id := waypoint_id_ s in
    let* id' := int_incr id in
    let s := set_waypoint_id id' s in
    let marker := createArrowMarker id (current_pose_ s) now in
    let s := emit (Publish_marker marker) s in
    Some (set_save_waypoint false s)
  else Some s.

(** The loop over the cycles for which [ros::ok()] holds. *)
Fixpoint run (ticks : list (Time.t * list Callback)) (s : WaypointMaker)
  : option WaypointMaker :=
  match ticks with
  | [] => Some s
  | (now, inbox) :: rest => let* s := run_once now inbox s in run rest s
  end.

End Node.

(** ** Observations on the output trace *)

Fixpoint published_markers (os : list Output) : list Marker.t :=
  match os with
  | [] => []
  | Publish_marker m :: os => m :: published_markers os
  | _ :: os => published_markers os
  end.

Fixpoint published_cmd_vels (os : list Output) : list Twist.t :=
  match os with
  | [] => []
  | Publish_cmd_vel t :: os => t :: published_cmd_vels os
  | _ :: os => published_cmd_vels os
  end.

(** A queued Joy message whose button 2 reads 1. *)
Definition presses_save (c : Callback) : bool :=
  match c with
  | JoyMsg m => match nth_error (Joy.buttons m) 2 with Some b => b =? 1 | None => false end
  | AmclPoseMsg _ => false
  end.

(** The fixed look of the markers [createArrowMarker] builds. *)
Definition arrow_style (m : Marker.t) : Prop :=
  Marker.frame_id m = "map"%string /\ Marker.ns m = "waypoints"%string /\
  Marker.type m = Marker.ARROW /\ Marker.action m = Marker.ADD /\
  Marker.scale m = Vector3.mk 0.3 0.1 0.0 /\
  Marker.color m = ColorRGBA.mk 1.0 0.0 0.0 1.0.

(** A consecutive run of ids from [z]. *)
Fixpoint consecutive_from (z : Z) (l : list Z) : Prop :=
  match l with
  | [] => True
  | x :: l => x = z /\ consecutive_from (z + 1) l
  end.

(** The pose the node holds after draining [inbox] from pose [p]: that of the
    last [amcl_pose] message, or [p] when there is none. *)
Fixpoint last_pose (inbox : list Callback) (p : Pose.t) : Pose.t :=
  match inbox with
  | [] => p
  | AmclPoseMsg m :: rest => last_pose rest (PoseWithCovarianceStamped.pose m)
  | JoyMsg _ :: rest => last_pose rest p
  end.

Fixpoint joy_msgs (inbox : list Callback) : list Joy.t :=
  match inbox with
  | [] => []
  | JoyMsg m :: rest => m :: joy_msgs rest
  | AmclPoseMsg _ :: rest => joy_msgs rest
  end.

(** The CSV text of a list of [(x, y, yaw)] records, one [csv_line] each. *)
Fixpoint csv_text (records : list (float * float * float)) : string :=
  match records with
  | [] => EmptyString
  | (x, y, yaw) :: rest => append (csv_line x y yaw) (csv_text rest)
  end.

(** The velocity command a Joy message's axes describe: [axes[3]] forward,
    [axes[0]] turning. *)
Definition axes_twist (m : Joy.t) : Twist.t :=
  Twist.mk (Vector3.mk (nth 3 (Joy.axes m) 0%float) 0 0)
           (Vector3.mk 0 0 (nth 0 (Joy.axes m) 0%float)).

(** The outputs a callback may produce: velocity commands and info logs. *)
Definition callback_output (o : Output) : bool :=
  match o with
  | Publish_cmd_vel _ | ROS_INFO _ _ => true
  | _ => false
  end.

Fixpoint error_count (os : list Output) : nat :=
  match os with
  | [] => 0
  | ROS_ERROR _ :: os => S (error_count os)
  | _ :: os => error_count os
  end.

(** A Joy message too short for the indices [joyCallback] reads. *)
Definition short_joy (m : Joy.t) : bool :=
  (length (Joy.buttons m) <=? 2)%nat || (length (Joy.axes m) <=? 3)%nat.

Definition has_short_joy (inbox : list Callback) : bool :=
  existsb (fun c => match c with JoyMsg m => short_joy m | AmclPoseMsg _ => false end) inbox.

(** [l1] is a subsequence of [l2]. *)
Fixpoint subseq {A} (l1 l2 : list A) : Prop :=
  match l2 with
  | [] => l1 = []
  | y :: l2' =>
      subseq l1 l2' \/ match l1 with [] => False | x :: l1' => x = y /\ subseq l1' l2' end
  end.

(** ** Concrete inputs *)

Definition t0 : Time.t := Time.mk 0 0.

(** A Joy message with button 2 pressed, axis 0 at 0.5 and axis 3 at 0.25. *)
Definition joy_save : Joy.t := Joy.mk [0; 0; 1; 0] [0.5; 0; 0; 0.25]%float.

Definition pose_1_2 : Pose.t := Pose.mk (Point.mk 1 2 0) (Quaternion.mk 0 0 0 1).

Definition csv_ok : CsvFile.t := CsvFile.mk true EmptyString.
Definition csv_unopenable : CsvFile.t := CsvFile.mk false EmptyString.
Definition pose_0_1 : Pose.t := Pose.mk (Point.mk 0 1 0) (Quaternion.mk 0 0 0 1).
Definition pose_msg_0_1 : PoseWithCovarianceStamped.t := PoseWithCovarianceStamped.mk pose_0_1 [].

(** * Properties *)

(** ** The stream formatter on sample values *)

Example ostream_double_1 : ostream_double 1.0%float = "1"%string.
Proof. reflexivity. Qed.
Example ostream_double_half_pi : ostream_double 1.5707963267948966%float = "1.5708"%string.
Proof. reflexivity. Qed.
Example ostream_double_small : ostream_double 0.0001%float = "0.0001"%string.
Proof. reflexivity. Qed.
Example ostream_double_tiny : ostream_double (-0.00001)%float = "-1e-05"%string.
Proof. reflexivity. Qed.
Example ostream_double_big : ostream_double 123456789%float = "1.23457e+08"%string.
Proof. reflexivity. Qed.
Example ostream_double_carry : ostream_double 999999.5%float = "1e+06"%string.
Proof. reflexivity. Qed.
Example ostream_double_tie : ostream_double 0.3%float = "0.3"%string.
Proof. reflexivity. Qed.


Example atan2_ref_quarter : ostream_double (atan2_ref 1 1) = "0.785398"%string.
Proof. vm_compute. reflexivity. Qed.

(** ** Frame lemmas *)

Lemma nth_error_nth_lt {A} (l : list A) n d :
  (n < length l)%nat -> nth_error l n = Some (nth n l d).
Proof.
  revert n; induction l as [|a l IH]; intros [|n] H; simpl in *; try lia; auto.
  apply IH; lia.
Qed.

Lemma published_markers_app os1 os2 :
  published_markers (os1 ++ os2) = published_markers os1 ++ published_markers os2.
Proof. induction os1 as [|[] os1 IH]; simpl; try rewrite IH; reflexivity. Qed.

Lemma callback_frame c s s1 :
  callback c s = Some s1 ->
  csv_file s1 = csv_file s /\ waypoint_id_ s1 = waypoint_id_ s /\
  (exists new, outputs s1 = outputs s ++ new /\ published_markers new = []) /\
  save_waypoint_ s1 = save_waypoint_ s || presses_save c /\
  (current_pose_ s1 = current_pose_ s \/ exists m, c = AmclPoseMsg m).
Proof.
  destruct c as [m | m]; cbn [callback presses_save].
  - unfold joyCallback.
    destruct (nth_error (Joy.buttons m) 2) as [b2|]; [|discriminate].
    destruct (nth_error (Joy.axes m) 3) as [a3|]; [|destruct (b2 =? 1); discriminate].
    destruct (nth_error (Joy.axes m) 0) as [a0|]; [|destruct (b2 =? 1); discriminate].
    intros H; destruct (b2 =? 1); injection H as <-; simpl;
      repeat split; auto; try (rewrite orb_true_r; reflexivity);
      try (rewrite orb_false_r; reflexivity); eexists; split; reflexivity.
  - intros H; injection H as <-; simpl.
    refine (conj eq_refl (conj eq_refl (conj _ (conj _ _)))).
    + eexists; split; [rewrite <- app_assoc; reflexivity | reflexivity].
    + rewrite orb_false_r; reflexivity.
    + right; eauto.
Qed.

Lemma spinOnce_frame inbox s s1 :
  spinOnce inbox s = Some s1 ->
  csv_file s1 = csv_file s /\ waypoint_id_ s1 = waypoint_id_ s /\
  (exists new, outputs s1 = outputs s ++ new /\ published_markers new = []) /\
  save_waypoint_ s1 = save_waypoint_ s || existsb presses_save inbox /\
  ((forall c, In c inbox -> exists m, c = JoyMsg m) -> current_pose_ s1 = current_pose_ s).
Proof.
  revert s; induction inbox as [|c inbox IH]; intros s H; simpl in H.
  - injection H as <-.
    refine (conj eq_refl (conj eq_refl (conj _ (conj _ _)))); auto.
    + exists []; split; [rewrite app_nil_r|]; reflexivity.
    + simpl; rewrite orb_false_r; reflexivity.
  - destruct (callback c s) as [s0|] eqn:E; [|discriminate].
    destruct (callback_frame c s s0 E) as (Hc & Hi & (n0 & Ho & Hm) & Hf & Hp).
    destruct (IH s0 H) as (Hc' & Hi' & (n1 & Ho' & Hm') & Hf' & Hp').
    refine (conj _ (conj _ (conj _ (conj _ _)))).
    + congruence.
    + congruence.
    + exists (n0 ++ n1); split.
      * rewrite Ho', Ho, app_assoc; reflexivity.
      * rewrite published_markers_app, Hm, Hm'; reflexivity.
    + rewrite Hf', Hf; simpl; rewrite orb_assoc; reflexivity.
    + intros Hj.
      rewrite Hp' by (intros c' Hc''; apply Hj; right; exact Hc'').
      destruct Hp as [Hp | [m ->]]; [exact Hp|].
      destruct (Hj (AmclPoseMsg m) (or_introl eq_refl)) as [m' Hm''];
        discriminate.
Qed.

Lemma callback_set_csv_file c f s :
  callback c (set_csv_file f s) = option_map (set_csv_file f) (callback c s).
Proof.
  destruct c as [m | m]; unfold callback; [|reflexivity].
  unfold joyCallback.
  destruct (nth_error (Joy.buttons m) 2) as [b2|]; [|reflexivity].
  destruct (nth_error (Joy.axes m) 3); [|destruct (b2 =? 1); reflexivity].
  destruct (nth_error (Joy.axes m) 0); destruct (b2 =? 1); reflexivity.
Qed.

Lemma spinOnce_set_csv_file inbox f s :
  spinOnce inbox (set_csv_file f s) = option_map (set_csv_file f) (spinOnce inbox s).
Proof.
  revert s; induction inbox as [|c inbox IH]; intros s; simpl; [reflexivity|].
  rewrite callback_set_csv_file.
  destruct (callback c s); simpl; [apply IH | reflexivity].
Qed.

Lemma callback_outputs c s s1 :
  callback c s = Some s1 ->
  CsvFile.opens (csv_file s1) = CsvFile.opens (csv_file s) /\
  exists new, outputs s1 = outputs s ++ new /\ forallb callback_output new = true.
Proof.
  destruct c as [m | m]; cbn [callback].
  - unfold joyCallback.
    destruct (nth_error (Joy.buttons m) 2) as [b2|]; [|discriminate].
    destruct (nth_error (Joy.axes m) 3) as [a3|]; [|destruct (b2 =? 1); discriminate].
    destruct (nth_error (Joy.axes m) 0) as [a0|]; [|destruct (b2 =? 1); discriminate].
    intros H; destruct (b2 =? 1); injection H as <-;
      (split; [reflexivity | eexists; split; reflexivity]).
  - intros H; injection H as <-; split; [reflexivity|].
    eexists; split; [simpl; rewrite <- app_assoc; reflexivity | reflexivity].
Qed.

Lemma spinOnce_outputs inbox s s1 :
  spinOnce inbox s = Some s1 ->
  exists new, outputs s1 = outputs s ++ new /\ forallb callback_output new = true.
Proof.
  revert s; induction inbox as [|c inbox IH]; intros s H; simpl in H.
  - injection H as <-; exists []; rewrite app_nil_r; auto.
  - destruct (callback c s) as [s0|] eqn:E; [|discriminate].
    destruct (callback_outputs c s s0 E) as (_ & n0 & Ho & Hf).
    destruct (IH s0 H) as (n1 & Ho' & Hf').
    exists (n0 ++ n1); split; [rewrite Ho', Ho, app_assoc; reflexivity|].
    rewrite forallb_app, Hf, Hf'; reflexivity.
Qed.

Lemma callback_outputs_no_error os :
  forallb callback_output os = true -> error_count os = 0%nat /\ published_markers os = [].
Proof.
  induction os as [|o os IH]; simpl; [auto|].
  destruct o; simpl; try discriminate; exact IH.
Qed.

Lemma error_count_app os1 os2 : error_count (os1 ++ os2) = (error_count os1 + error_count os2)%nat.
Proof. induction os1 as [|[] os1 IH]; simpl; try rewrite IH; reflexivity. Qed.

Section Cycle.

Variable atan2 : float -> float -> float.

Lemma saveWaypointToCSV_frame pose s :
  let s' := saveWaypointToCSV atan2 pose s in
  current_pose_ s' = current_pose_ s /\ save_waypoint_ s' = save_waypoint_ s /\
  waypoint_id_ s' = waypoint_id_ s /\
  CsvFile.opens (csv_file s') = CsvFile.opens (csv_file s) /\
  exists o, outputs s' = outputs s ++ [o] /\ published_markers [o] = [].
Proof.
  unfold saveWaypointToCSV; destruct (CsvFile.opens (csv_file s)) eqn:E;
    simpl; rewrite ?E; repeat split; eexists; split; reflexivity.
Qed.

Lemma run_once_saves now inbox s s1 :
  spinOnce inbox s = Some s1 -> save_waypoint_ s1 = true ->
  waypoint_id_ s1 < INT_MAX ->
  run_once atan2 now inbox s =
  Some (set_save_waypoint false
          (emit (Publish_marker (createArrowMarker (waypoint_id_ s1) (current_pose_ s1) now))
             (set_waypoint_id (waypoint_id_ s1 + 1)
                (saveWaypointToCSV atan2 (current_pose_ s1)
                   (emit (ROS_INFO "現在位置: x = %f, y = %f"
                            [Point.x (Pose.position (current_pose_ s1));
                             Point.y (Pose.position (current_pose_ s1))]) s1))))).
Proof.
  intros H1 H2 H3; unfold run_once; rewrite H1, H2.
  unfold saveWaypointToCSV, int_incr; simpl.
  destruct (CsvFile.opens (csv_file s1)); simpl;
    rewrite (proj2 (Z.ltb_lt _ _) H3); reflexivity.
Qed.

Lemma run_once_idle now inbox s s1 :
  spinOnce inbox s = Some s1 -> save_waypoint_ s1 = false ->
  run_once atan2 now inbox s = Some s1.
Proof. intros H1 H2; unfold run_once; rewrite H1, H2; reflexivity. Qed.

End Cycle.

(** C1 (amended). In a cycle whose drained callbacks leave the save flag set,
    with the marker id below [INT_MAX], the cycle completes, [waypoint_id_] grows
    by exactly one, and the CSV file gains exactly the line [x,y,yaw] of the
    current pose when it opens, and nothing when it does not. *)
Theorem run_once_save_cycle :
  forall atan2 now inbox s s1,
    spinOnce inbox s = Some s1 -> save_waypoint_ s1 = true ->
    waypoint_id_ s1 < INT_MAX ->
    exists s', run_once atan2 now inbox s = Some s' /\
      waypoint_id_ s' = waypoint_id_ s + 1 /\
      CsvFile.contents (csv_file s') =
        (let p := current_pose_ s1 in
         let qz := Quaternion.z (Pose.orientation p) in
         let qw := Quaternion.w (Pose.orientation p) in
         if CsvFile.opens (csv_file s) then
           append (CsvFile.contents (csv_file s))
             (csv_line (Point.x (Pose.position p)) (Point.y (Pose.position p))
                (atan2 (2.0 * (qw * qz))%float (1.0 - 2.0 * (qz * qz))%float))
         else CsvFile.contents (csv_file s)).
Proof.
  intros atan2 now inbox s s1 H1 H2 H3.
  destruct (spinOnce_frame _ _ _ H1) as (Hc & Hi & _).
  rewrite (run_once_saves atan2 now inbox s s1 H1 H2 H3).
  eexists; split; [reflexivity|].
  rewrite <- Hc, <- Hi; unfold saveWaypointToCSV; simpl.
  destruct (CsvFile.opens (csv_file s1)); split; reflexivity.
Qed.

Lemma run_once_save_cycle_witness :
  (spinOnce [JoyMsg joy_save] (WaypointMaker_new csv_ok) =
     Some (emit (Publish_cmd_vel (Twist.mk (Vector3.mk 0.25 0 0) (Vector3.mk 0 0 0.5)))
             (set_save_waypoint true (WaypointMaker_new csv_ok)))) /\
  exists s', run_once atan2_ref t0 [JoyMsg joy_save] (WaypointMaker_new csv_ok) = Some s' /\
    waypoint_id_ s' = 0 + 1 /\ CsvFile.contents (csv_file s') = append "0,0,0" newline.
Proof.
  split; [reflexivity|].
  destruct (run_once_save_cycle atan2_ref t0 [JoyMsg joy_save] (WaypointMaker_new csv_ok)
              (emit (Publish_cmd_vel (Twist.mk (Vector3.mk 0.25 0 0) (Vector3.mk 0 0 0.5)))
                 (set_save_waypoint true (WaypointMaker_new csv_ok))))
    as (s' & H1 & H2 & H3); [reflexivity | reflexivity | vm_compute; reflexivity |].
  exists s'; split; [exact H1 | split; [exact H2 | rewrite H3; vm_compute; reflexivity]].
Defined.

(** C1 (counterexample). A cycle with the save flag set whose CSV file does not
    open appends no line, while the id still grows by one. *)
Lemma run_once_unopenable_csv_appends_no_line :
  exists s1 s',
    spinOnce [JoyMsg joy_save] (WaypointMaker_new csv_unopenable) = Some s1 /\
    save_waypoint_ s1 = true /\
    run_once atan2_ref t0 [JoyMsg joy_save] (WaypointMaker_new csv_unopenable) = Some s' /\
    CsvFile.contents (csv_file s') = EmptyString /\ waypoint_id_ s' = 1.
Proof. do 2 eexists; repeat split; reflexivity. Qed.

(** C2. The yaw written by [saveWaypointToCSV] is
    [atan2(2*(w*z), 1 - 2*(z*z))] of the pose's quaternion (the products
    grouped as in the source); the quaternion's x and y components play no
    part: the whole result is unchanged when they are replaced. *)
Theorem saveWaypointToCSV_planar_yaw :
  forall atan2 pose s,
    let qz := Quaternion.z (Pose.orientation pose) in
    let qw := Quaternion.w (Pose.orientation pose) in
    let yaw := atan2 (2.0 * (qw * qz))%float (1.0 - 2.0 * (qz * qz))%float in
    CsvFile.contents (csv_file (saveWaypointToCSV atan2 pose s)) =
      (if CsvFile.opens (csv_file s) then
         append (CsvFile.contents (csv_file s))
           (csv_line (Point.x (Pose.position pose)) (Point.y (Pose.position pose)) yaw)
       else CsvFile.contents (csv_file s)) /\
    (forall qx qy,
        saveWaypointToCSV atan2 (Pose.mk (Pose.position pose) (Quaternion.mk qx qy qz qw)) s =
        saveWaypointToCSV atan2 pose s).
Proof.
  intros atan2 pose s qz qw yaw.
  unfold saveWaypointToCSV; destruct (CsvFile.opens (csv_file s)); split; reflexivity.
Qed.

(** C3. A Joy message (with the button 2 and the axes 0 and 3 the node reads)
    makes [joyCallback] publish exactly one velocity command, with
    [linear.x = axes[3]] and [angular.z = axes[0]] and every other component 0,
    whatever the buttons and the save flag; the flag is only raised. *)
Theorem joyCallback_cmd_vel_passthrough :
  forall joy_msg s,
    (2 < length (Joy.buttons joy_msg))%nat ->
    (3 < length (Joy.axes joy_msg))%nat ->
    exists s', joyCallback joy_msg s = Some s' /\
      outputs s' =
        outputs s ++
          [Publish_cmd_vel
             (Twist.mk (Vector3.mk (nth 3 (Joy.axes joy_msg) 0%float) 0 0)
                       (Vector3.mk 0 0 (nth 0 (Joy.axes joy_msg) 0%float)))] /\
      save_waypoint_ s' = save_waypoint_ s || (nth 2 (Joy.buttons joy_msg) 0 =? 1).
Proof.
  intros m s Hb Ha; unfold joyCallback.
  rewrite (nth_error_nth_lt _ 2 0 Hb), (nth_error_nth_lt _ 3 0%float Ha),
    (nth_error_nth_lt _ 0 0%float) by lia.
  destruct (nth 2 (Joy.buttons m) 0 =? 1); eexists; (split; [reflexivity|]);
    simpl; split; try reflexivity.
  - rewrite orb_true_r; reflexivity.
  - rewrite orb_false_r; reflexivity.
Qed.

Lemma joyCallback_cmd_vel_passthrough_witness :
  (2 < length (Joy.buttons joy_save))%nat /\ (3 < length (Joy.axes joy_save))%nat /\
  exists s', joyCallback joy_save (WaypointMaker_new csv_ok) = Some s' /\
    outputs s' = [Publish_cmd_vel (Twist.mk (Vector3.mk 0.25 0 0) (Vector3.mk 0 0 0.5))].
Proof.
  split; [cbn; lia | split; [cbn; lia |]].
  destruct (joyCallback_cmd_vel_passthrough joy_save (WaypointMaker_new csv_ok))
    as (s' & H1 & H2 & _); [cbn; lia | cbn; lia |].
  exists s'; split; [exact H1 | rewrite H2; reflexivity].
Defined.

(** C4. When the save flag is set and the CSV file does not open, the cycle
    leaves the file as it was, logs the error (the outputs this cycle appends
    hold exactly one [ROS_ERROR], that message), clears the flag and completes,
    and the loop goes on with the next cycle (with the marker id below
    [INT_MAX], beyond which [waypoint_id_++] is undefined). *)
Theorem run_once_unopenable_csv_logs_and_continues :
  forall atan2 now inbox rest s s1,
    spinOnce inbox s = Some s1 -> save_waypoint_ s1 = true ->
    CsvFile.opens (csv_file s) = false -> waypoint_id_ s1 < INT_MAX ->
    exists s', run_once atan2 now inbox s = Some s' /\
      csv_file s' = csv_file s /\
      (exists new, outputs s' = outputs s ++ new /\
         In (ROS_ERROR "CSVファイルを開けませんでした") new /\ error_count new = 1%nat) /\
      save_waypoint_ s' = false /\
      run atan2 ((now, inbox) :: rest) s = run atan2 rest s'.
Proof.
  intros atan2 now inbox rest s s1 H1 H2 Hf H3.
  destruct (spinOnce_frame _ _ _ H1) as (Hc & _).
  destruct (spinOnce_outputs _ _ _ H1) as (new & Ho & Hn).
  destruct (callback_outputs_no_error new Hn) as [He _].
  assert (Hf1 : CsvFile.opens (csv_file s1) = false) by (rewrite Hc; exact Hf).
  simpl run; rewrite (run_once_saves atan2 now inbox s s1 H1 H2 H3).
  eexists; split; [reflexivity|].
  unfold saveWaypointToCSV; simpl; rewrite Hf1; simpl.
  refine (conj Hc (conj _ (conj eq_refl eq_refl))).
  rewrite Ho, <- !app_assoc; eexists; split; [reflexivity|].
  split; [rewrite !in_app_iff; simpl; auto|].
  rewrite error_count_app, He; reflexivity.
Qed.

Lemma run_once_unopenable_csv_logs_and_continues_witness :
  exists s', run_once atan2_ref t0 [JoyMsg joy_save] (WaypointMaker_new csv_unopenable) = Some s' /\
    csv_file s' = csv_unopenable /\ save_waypoint_ s' = false /\
    exists new, outputs s' = [] ++ new /\ error_count new = 1%nat.
Proof.
  destruct (run_once_unopenable_csv_logs_and_continues atan2_ref t0 [JoyMsg joy_save] []
              (WaypointMaker_new csv_unopenable)
              (emit (Publish_cmd_vel (Twist.mk (Vector3.mk 0.25 0 0) (Vector3.mk 0 0 0.5)))
                 (set_save_waypoint true (WaypointMaker_new csv_unopenable))))
    as (s' & H1 & H2 & (new & Ho & _ & He) & H4 & _);
    [reflexivity | reflexivity | reflexivity | vm_compute; reflexivity |].
  exists s'; split; [exact H1 | split; [exact H2 | split; [exact H4 | exists new; auto]]].
Defined.

Section Cases.

Variable atan2 : float -> float -> float.

Lemma run_once_overflow now inbox s s1 :
  spinOnce inbox s = Some s1 -> save_waypoint_ s1 = true ->
  INT_MAX <= waypoint_id_ s1 ->
  run_once atan2 now inbox s = None.
Proof.
  intros H1 H2 H3; unfold run_once; rewrite H1, H2.
  unfold int_incr; destruct (_ <? INT_MAX) eqn:E; [|reflexivity].
  apply Z.ltb_lt in E; unfold saveWaypointToCSV in E.
  destruct (CsvFile.opens _) in E; simpl in E; lia.
Qed.

(** A completed cycle either found the flag clear after [spinOnce] and did
    nothing more, or saved once. *)
Lemma run_once_cases now inbox s s' :
  run_once atan2 now inbox s = Some s' ->
  exists s1, spinOnce inbox s = Some s1 /\
    ((save_waypoint_ s1 = false /\ s' = s1) \/
     (save_waypoint_ s1 = true /\ waypoint_id_ s1 < INT_MAX /\
      s' = set_save_waypoint false
             (emit (Publish_marker (createArrowMarker (waypoint_id_ s1) (current_pose_ s1) now))
                (set_waypoint_id (waypoint_id_ s1 + 1)
                   (saveWaypointToCSV atan2 (current_pose_ s1)
                      (emit (ROS_INFO "現在位置: x = %f, y = %f"
                               [Point.x (Pose.position (current_pose_ s1));
                                Point.y (Pose.position (current_pose_ s1))]) s1)))))).
Proof.
  intros H.
  destruct (spinOnce inbox s) as [s1|] eqn:E; [|unfold run_once in H; rewrite E in H; discriminate].
  exists s1; split; [reflexivity|].
  destruct (save_waypoint_ s1) eqn:F.
  - destruct (Z.ltb_spec (waypoint_id_ s1) INT_MAX) as [Hl|Hl].
    + rewrite (run_once_saves atan2 now inbox s s1 E F Hl) in H.
      injection H as <-; right; auto.
    + rewrite (run_once_overflow now inbox s s1 E F Hl) in H; discriminate.
  - rewrite (run_once_idle atan2 now inbox s s1 E F) in H.
    injection H as <-; left; auto.
Qed.

(** What a saving cycle adds to the trace and the file. *)
Lemma save_step_effects now s1 :
  let s' := set_save_waypoint false
             (emit (Publish_marker (createArrowMarker (waypoint_id_ s1) (current_pose_ s1) now))
                (set_waypoint_id (waypoint_id_ s1 + 1)
                   (saveWaypointToCSV atan2 (current_pose_ s1)
                      (emit (ROS_INFO "現在位置: x = %f, y = %f"
                               [Point.x (Pose.position (current_pose_ s1));
                                Point.y (Pose.position (current_pose_ s1))]) s1)))) in
  save_waypoint_ s' = false /\ waypoint_id_ s' = waypoint_id_ s1 + 1 /\
  current_pose_ s' = current_pose_ s1 /\
  (exists new, outputs s' = outputs s1 ++ new /\
     published_markers new = [createArrowMarker (waypoint_id_ s1) (current_pose_ s1) now]) /\
  (CsvFile.contents (csv_file s') = CsvFile.contents (csv_file s1) \/
   exists x y yaw, CsvFile.contents (csv_file s') =
                   append (CsvFile.contents (csv_file s1)) (csv_line x y yaw)).
Proof.
  unfold saveWaypointToCSV; simpl.
  destruct (CsvFile.opens (csv_file s1)); simpl;
    (refine (conj eq_refl (conj eq_refl (conj eq_refl (conj _ _))));
     [eexists; split; [rewrite <- !app_assoc; reflexivity | reflexivity] |]).
  - right; do 3 eexists; reflexivity.
  - left; reflexivity.
Qed.

End Cases.

(** C5. On a save, whether the CSV file opens or not, the cycle publishes the
    arrow marker with the current id and pose and moves [waypoint_id_] by one:
    both are the same for every file-open outcome. *)
Theorem save_marker_and_id_ignore_csv_open :
  forall atan2 now inbox s s1 (opens : bool) (contents : string),
    spinOnce inbox s = Some s1 -> save_waypoint_ s1 = true ->
    waypoint_id_ s1 < INT_MAX ->
    exists s', run_once atan2 now inbox (set_csv_file (CsvFile.mk opens contents) s) = Some s' /\
      waypoint_id_ s' = waypoint_id_ s + 1 /\
      published_markers (outputs s') =
        published_markers (outputs s) ++
          [createArrowMarker (waypoint_id_ s) (current_pose_ s1) now].
Proof.
  intros atan2 now inbox s s1 b c H1 H2 H3.
  destruct (spinOnce_frame _ _ _ H1) as (_ & Hi & (new & Ho & Hm) & _).
  assert (H1' : spinOnce inbox (set_csv_file (CsvFile.mk b c) s) =
                Some (set_csv_file (CsvFile.mk b c) s1))
    by (rewrite spinOnce_set_csv_file, H1; reflexivity).
  rewrite (run_once_saves atan2 now inbox _ _ H1' H2 H3).
  destruct (save_step_effects atan2 now (set_csv_file (CsvFile.mk b c) s1))
    as (_ & Hi' & _ & (new' & Ho' & Hm') & _).
  eexists; split; [reflexivity|]; split.
  - rewrite Hi'; simpl; rewrite Hi; reflexivity.
  - rewrite Ho', published_markers_app, Hm'; simpl.
    rewrite Ho, published_markers_app, Hm, app_nil_r, Hi; reflexivity.
Qed.

Lemma save_marker_and_id_ignore_csv_open_witness :
  exists s', run_once atan2_ref t0 [JoyMsg joy_save]
               (set_csv_file csv_unopenable (WaypointMaker_new csv_ok)) = Some s' /\
    waypoint_id_ s' = 0 + 1 /\
    published_markers (outputs s') = [] ++ [createArrowMarker 0 (current_pose_ (WaypointMaker_new csv_ok)) t0].
Proof.
  exact (save_marker_and_id_ignore_csv_open atan2_ref t0 [JoyMsg joy_save]
           (WaypointMaker_new csv_ok)
           (emit (Publish_cmd_vel (Twist.mk (Vector3.mk 0.25 0 0) (Vector3.mk 0 0 0.5)))
              (set_save_waypoint true (WaypointMaker_new csv_ok)))
           false EmptyString eq_refl eq_refl (eq_refl : (0 ?= INT_MAX) = Lt)).
Defined.

(** C6. However many drained Joy messages press button 2, a completed cycle
    publishes at most one marker, appends at most one CSV line and moves the id
    by at most one: raising the already raised flag changes nothing. *)
Theorem run_once_at_most_one_save :
  forall atan2 now inbox s s',
    run_once atan2 now inbox s = Some s' ->
    exists new, outputs s' = outputs s ++ new /\
      (length (published_markers new) <= 1)%nat /\
      (waypoint_id_ s' = waypoint_id_ s \/ waypoint_id_ s' = waypoint_id_ s + 1) /\
      (CsvFile.contents (csv_file s') = CsvFile.contents (csv_file s) \/
       exists x y yaw, CsvFile.contents (csv_file s') =
                       append (CsvFile.contents (csv_file s)) (csv_line x y yaw)).
Proof.
  intros atan2 now inbox s s' H.
  destruct (run_once_cases atan2 now inbox s s' H) as (s1 & E & [[F ->] | (F & L & ->)]);
    destruct (spinOnce_frame _ _ _ E) as (Hc & Hi & (new & Ho & Hm) & _).
  - exists new; rewrite Hm, Hi, Hc; auto.
  - destruct (save_step_effects atan2 now s1) as (_ & Hi' & _ & (new' & Ho' & Hm') & Hf).
    exists (new ++ new'); split; [rewrite Ho', Ho, app_assoc; reflexivity|].
    rewrite published_markers_app, Hm, Hm', Hi', Hi, <- Hc; simpl; auto.
Qed.

Lemma run_once_at_most_one_save_witness :
  exists new, (length (published_markers new) <= 1)%nat.
Proof.
  destruct (run_once_at_most_one_save atan2_ref t0 [JoyMsg joy_save; JoyMsg joy_save]
              (WaypointMaker_new csv_ok)
              (set_save_waypoint false
                 (emit (Publish_marker (createArrowMarker 0 (current_pose_ (WaypointMaker_new csv_ok)) t0))
                    (set_waypoint_id 1
                       (saveWaypointToCSV atan2_ref (current_pose_ (WaypointMaker_new csv_ok))
                          (emit (ROS_INFO "現在位置: x = %f, y = %f" [0%float; 0%float])
                             (emit (Publish_cmd_vel (Twist.mk (Vector3.mk 0.25 0 0) (Vector3.mk 0 0 0.5)))
                                (emit (Publish_cmd_vel (Twist.mk (Vector3.mk 0.25 0 0) (Vector3.mk 0 0 0.5)))
                                   (set_save_waypoint true (WaypointMaker_new csv_ok))))))))))
    as (new & _ & H2 & _); [vm_compute; reflexivity|].
  exists new; exact H2.
Defined.

(** C7 (counterexample). Button 2 held down: a Joy message with it pressed in
    each of two cycles, with no release between them, saves in both cycles. *)
Lemma held_button_saves_every_cycle :
  exists s', run atan2_ref [(t0, [JoyMsg joy_save]); (t0, [JoyMsg joy_save])]
               (WaypointMaker_new csv_ok) = Some s' /\
    waypoint_id_ s' = 2 /\ length (published_markers (outputs s')) = 2%nat /\
    CsvFile.contents (csv_file s') = append "0,0,0" (append newline (append "0,0,0" newline)).
Proof. eexists; split; [vm_compute; reflexivity | repeat split; vm_compute; reflexivity]. Qed.

(** C7 (amended). The save flag is raised by every drained Joy message whose
    button 2 reads 1, whatever earlier messages held, and a completed cycle
    always clears it. So a cycle that starts with the flag clear (the initial
    state, and every state after a completed cycle) saves (one marker, the id
    moved by one) exactly when one of its drained Joy messages has button 2
    pressed: a button held while Joy messages keep arriving saves every cycle. *)
Theorem run_once_saves_iff_pressed :
  forall atan2 now inbox s s',
    save_waypoint_ s = false ->
    run_once atan2 now inbox s = Some s' ->
    save_waypoint_ s' = false /\
    exists new, outputs s' = outputs s ++ new /\
      length (published_markers new) = (if existsb presses_save inbox then 1 else 0)%nat /\
      waypoint_id_ s' = waypoint_id_ s + (if existsb presses_save inbox then 1 else 0).
Proof.
  intros atan2 now inbox s s' H0 H.
  destruct (run_once_cases atan2 now inbox s s' H) as (s1 & E & [[F ->] | (F & L & ->)]);
    destruct (spinOnce_frame _ _ _ E) as (Hc & Hi & (new & Ho & Hm) & Hf & _);
    rewrite H0 in Hf; simpl in Hf; rewrite <- Hf.
  - rewrite F; split; [reflexivity|].
    exists new; rewrite Hm, Hi, Z.add_0_r; auto.
  - rewrite F.
    destruct (save_step_effects atan2 now s1) as (Hs' & Hi' & _ & (new' & Ho' & Hm') & _).
    split; [exact Hs'|].
    exists (new ++ new'); split; [rewrite Ho', Ho, app_assoc; reflexivity|].
    rewrite published_markers_app, Hm, Hm', Hi', Hi; auto.
Qed.

Lemma run_once_saves_iff_pressed_witness :
  save_waypoint_ (WaypointMaker_new csv_ok) = false /\
  exists new, length (published_markers new) = 1%nat.
Proof.
  destruct (run_once_saves_iff_pressed atan2_ref t0 [JoyMsg joy_save]
              (WaypointMaker_new csv_ok)
              (set_save_waypoint false
                 (emit (Publish_marker (createArrowMarker 0 (current_pose_ (WaypointMaker_new csv_ok)) t0))
                    (set_waypoint_id 1
                       (saveWaypointToCSV atan2_ref (current_pose_ (WaypointMaker_new csv_ok))
                          (emit (ROS_INFO "現在位置: x = %f, y = %f" [0%float; 0%float])
                             (emit (Publish_cmd_vel (Twist.mk (Vector3.mk 0.25 0 0) (Vector3.mk 0 0 0.5)))
                                (set_save_waypoint true (WaypointMaker_new csv_ok)))))))))
    as (_ & new & _ & H2 & _); [reflexivity | vm_compute; reflexivity |].
  split; [reflexivity | exists new; exact H2].
Defined.

(** C8 (counterexample). Saving the pose x = 1, y = 2, z = 0, w = 1 appends
    [1,2,0], not [1.000000,2.000000,0.000000]: the stream is not in fixed
    notation. *)
Lemma pose_1_2_line_is_not_fixed_six_decimals :
  CsvFile.contents (csv_file (saveWaypointToCSV atan2_ref pose_1_2 (WaypointMaker_new csv_ok)))
    = append "1,2,0" newline /\
  String.eqb
    (CsvFile.contents (csv_file (saveWaypointToCSV atan2_ref pose_1_2 (WaypointMaker_new csv_ok))))
    (append "1.000000,2.000000,0.000000" newline) = false.
Proof. split; vm_compute; reflexivity. Qed.

(** C8 (amended). Saving the pose x = 1, y = 2, z = 0, w = 1 computes
    yaw = atan2(+0, 1) = +0 (its C99 Annex F value) and, when the file opens,
    appends the newline-terminated line [1,2,0]: default stream formatting,
    6 significant digits with trailing zeros dropped. *)
Theorem pose_1_2_line_default_format :
  forall atan2 s,
    atan2 0%float 1%float = 0%float ->
    CsvFile.contents (csv_file (saveWaypointToCSV atan2 pose_1_2 s)) =
      (if CsvFile.opens (csv_file s) then
         append (CsvFile.contents (csv_file s)) (append "1,2,0" newline)
       else CsvFile.contents (csv_file s)) /\
    outputs (saveWaypointToCSV atan2 pose_1_2 s) =
      outputs s ++
        [if CsvFile.opens (csv_file s) then
           ROS_INFO "ウェイポイントを保存しました: [%f, %f, %f]" [1%float; 2%float; 0%float]
         else ROS_ERROR "CSVファイルを開けませんでした"].
Proof.
  intros atan2 s H; unfold saveWaypointToCSV, pose_1_2.
  destruct (CsvFile.opens (csv_file s)); simpl; [|split; reflexivity].
  rewrite H; split; reflexivity.
Qed.

Lemma pose_1_2_line_default_format_witness :
  atan2_ref 0%float 1%float = 0%float /\
  CsvFile.contents (csv_file (saveWaypointToCSV atan2_ref pose_1_2 (WaypointMaker_new csv_ok))) =
    append "1,2,0" newline.
Proof.
  assert (H : atan2_ref 0%float 1%float = 0%float) by (vm_compute; reflexivity).
  split; [exact H|].
  exact (proj1 (pose_1_2_line_default_format atan2_ref (WaypointMaker_new csv_ok) H)).
Defined.

Lemma consecutive_from_app z l1 l2 :
  consecutive_from z l1 -> consecutive_from (z + Z.of_nat (length l1)) l2 ->
  consecutive_from z (l1 ++ l2).
Proof.
  revert z; induction l1 as [|x l1 IH]; intros z H1 H2; simpl in *.
  - rewrite Z.add_0_r in H2; exact H2.
  - destruct H1 as [-> H1]; split; [reflexivity|].
    apply IH; [exact H1|].
    replace (z + 1 + Z.of_nat (length l1)) with (z + Z.of_nat (S (length l1))) by lia.
    exact H2.
Qed.

Lemma consecutive_from_sorted z l : consecutive_from z l -> Sorted Z.lt l.
Proof.
  revert z; induction l as [|x l IH]; intros z H; [constructor|].
  destruct H as [-> H]; constructor; [exact (IH _ H)|].
  destruct l as [|y l]; constructor.
  destruct H as [-> _]; lia.
Qed.

Lemma createArrowMarker_style id pose now : arrow_style (createArrowMarker id pose now).
Proof. repeat split. Qed.

Lemma run_once_markers atan2 now inbox s s' :
  run_once atan2 now inbox s = Some s' ->
  exists new, outputs s' = outputs s ++ new /\
    Forall arrow_style (published_markers new) /\
    consecutive_from (waypoint_id_ s) (map Marker.id (published_markers new)) /\
    waypoint_id_ s' = waypoint_id_ s + Z.of_nat (length (published_markers new)).
Proof.
  intros H.
  destruct (run_once_cases atan2 now inbox s s' H) as (s1 & E & [[F ->] | (F & L & ->)]);
    destruct (spinOnce_frame _ _ _ E) as (Hc & Hi & (new & Ho & Hm) & _).
  - exists new; rewrite Hm, Hi; simpl; rewrite Z.add_0_r; auto.
  - destruct (save_step_effects atan2 now s1) as (_ & Hi' & _ & (new' & Ho' & Hm') & _).
    exists (new ++ new'); split; [rewrite Ho', Ho, app_assoc; reflexivity|].
    rewrite published_markers_app, Hm, Hm', Hi', Hi; simpl.
    split; [constructor; [apply createArrowMarker_style | constructor]|].
    split; [split; [reflexivity | exact I] | reflexivity].
Qed.

(** C9. Over any run of cycles, every published marker is a red arrow
    (frame "map", namespace "waypoints", scale 0.3 x 0.1 x 0, colour
    (1, 0, 0, 1)) and the ids of the published markers are consecutive from the
    starting [waypoint_id_], hence strictly increasing; and the marker of a
    saving cycle is placed at the current pose of that cycle. *)
Theorem run_markers_arrows_with_increasing_ids :
  forall atan2 ticks s s',
    run atan2 ticks s = Some s' ->
    (exists new, outputs s' = outputs s ++ new /\
       Forall arrow_style (published_markers new) /\
       consecutive_from (waypoint_id_ s) (map Marker.id (published_markers new)) /\
       Sorted Z.lt (map Marker.id (published_markers new)) /\
       waypoint_id_ s' = waypoint_id_ s + Z.of_nat (length (published_markers new))) /\
    (forall now inbox s0 s1 s2,
       spinOnce inbox s0 = Some s1 -> run_once atan2 now inbox s0 = Some s2 ->
       exists new, outputs s2 = outputs s1 ++ new /\
         published_markers new =
           (if save_waypoint_ s1
            then [createArrowMarker (waypoint_id_ s1) (current_pose_ s1) now] else [])).
Proof.
  intros atan2 ticks s s' H; split.
  - cut (exists new, outputs s' = outputs s ++ new /\
           Forall arrow_style (published_markers new) /\
           consecutive_from (waypoint_id_ s) (map Marker.id (published_markers new)) /\
           waypoint_id_ s' = waypoint_id_ s + Z.of_nat (length (published_markers new))).
    { intros (new & H1 & H2 & H3 & H4); exists new.
      repeat split; auto; eapply consecutive_from_sorted; eauto. }
    revert s H; induction ticks as [|[now inbox] ticks IH]; intros s H; simpl in H.
    + injection H as <-; exists []; rewrite app_nil_r; simpl; rewrite Z.add_0_r; auto.
    + destruct (run_once atan2 now inbox s) as [s0|] eqn:E; [|discriminate].
      destruct (run_once_markers atan2 now inbox s s0 E) as (n0 & Ho & Hs & Hc & Hi).
      destruct (IH s0 H) as (n1 & Ho' & Hs' & Hc' & Hi').
      exists (n0 ++ n1); rewrite published_markers_app.
      split; [rewrite Ho', Ho, app_assoc; reflexivity|].
      split; [apply Forall_app; auto|].
      split; [rewrite map_app; apply consecutive_from_app; [exact Hc|];
              rewrite length_map, <- Hi; exact Hc'|].
      rewrite Hi', Hi, length_app; lia.
  - intros now inbox s0 s1 s2 E H2.
    destruct (run_once_cases atan2 now inbox s0 s2 H2) as (s1' & E' & [[F ->] | (F & L & ->)]);
      rewrite E in E'; injection E' as <-.
    + rewrite F; exists []; rewrite app_nil_r; auto.
    + rewrite F; destruct (save_step_effects atan2 now s1) as (_ & _ & _ & (new & Ho & Hm) & _).
      exists new; auto.
Qed.

Lemma two_held_cycles_run :
  exists s', run atan2_ref [(t0, [JoyMsg joy_save]); (t0, [JoyMsg joy_save])]
               (WaypointMaker_new csv_ok) = Some s' /\
    length (published_markers (outputs s')) = 2%nat.
Proof. eexists; split; [vm_compute; reflexivity | vm_compute; reflexivity]. Qed.

Lemma run_markers_arrows_with_increasing_ids_witness :
  exists new, Sorted Z.lt (map Marker.id (published_markers new)) /\
              length (published_markers new) = 2%nat.
Proof.
  destruct two_held_cycles_run as (s' & Hrun & Hlen).
  destruct (proj1 (run_markers_arrows_with_increasing_ids atan2_ref
                     [(t0, [JoyMsg joy_save]); (t0, [JoyMsg joy_save])]
                     (WaypointMaker_new csv_ok) s' Hrun))
    as (new & Ho & _ & _ & Hs & _).
  exists new; split; [exact Hs|].
  rewrite Ho in Hlen; exact Hlen.
Defined.

Lemma run_joy_only_pose atan2 ticks s s' :
  run atan2 ticks s = Some s' ->
  (forall t c, In t ticks -> In c (snd t) -> exists m, c = JoyMsg m) ->
  current_pose_ s' = current_pose_ s.
Proof.
  revert s; induction ticks as [|[now inbox] ticks IH]; intros s H Hj; simpl in H.
  - injection H as <-; reflexivity.
  - destruct (run_once atan2 now inbox s) as [s0|] eqn:E; [|discriminate].
    rewrite (IH s0 H (fun t c Ht => Hj t c (or_intror Ht))).
    assert (Hj0 : forall c, In c inbox -> exists m, c = JoyMsg m)
      by (intros c Hc; exact (Hj (now, inbox) c (or_introl eq_refl) Hc)).
    destruct (run_once_cases atan2 now inbox s s0 E) as (s1 & E1 & [[_ ->] | (_ & _ & ->)]);
      destruct (spinOnce_frame _ _ _ E1) as (_ & _ & _ & _ & Hp);
      rewrite <- (Hp Hj0); [reflexivity|].
    destruct (save_step_effects atan2 now s1) as (_ & _ & Hq & _); exact Hq.
Qed.

(** C10. The constructor's pose is x = 0, y = 0, z = 0, w = 1, and only a pose
    message changes it; so a save in any cycle before the first localization
    message (every earlier cycle, and this one, drained only Joy messages)
    records the origin: with [atan2(+0, 1) = +0] (its C99 Annex F value) the
    appended line is [0,0,0], and the marker the cycle publishes stands at that
    pose with the current id. *)
Theorem save_before_first_pose_records_origin :
  forall atan2 csv ticks s now inbox s',
    atan2 0%float 1%float = 0%float ->
    run atan2 ticks (WaypointMaker_new csv) = Some s ->
    (forall t c, In t ticks -> In c (snd t) -> exists m, c = JoyMsg m) ->
    (forall c, In c inbox -> exists m, c = JoyMsg m) ->
    existsb presses_save inbox = true ->
    run_once atan2 now inbox s = Some s' ->
    current_pose_ s = Pose.mk (Point.mk 0 0 0) (Quaternion.mk 0 0 0 1) /\
    exists new, outputs s' = outputs s ++ new /\
      CsvFile.contents (csv_file s') =
        (if CsvFile.opens (csv_file s)
         then append (CsvFile.contents (csv_file s)) (append "0,0,0" newline)
         else CsvFile.contents (csv_file s)) /\
      published_markers new =
        [createArrowMarker (waypoint_id_ s) (Pose.mk (Point.mk 0 0 0) (Quaternion.mk 0 0 0 1)) now].
Proof.
  intros atan2 csv ticks s now inbox s' Ha Hr Hjs Hj Hp H.
  assert (H0 : current_pose_ s = Pose.mk (Point.mk 0 0 0) (Quaternion.mk 0 0 0 1))
    by (rewrite (run_joy_only_pose atan2 ticks _ s Hr Hjs); reflexivity).
  split; [exact H0|].
  destruct (run_once_cases atan2 now inbox s s' H) as (s1 & E & [[F _] | (F & L & ->)]);
    destruct (spinOnce_frame _ _ _ E) as (Hc & Hi & (new & Ho & Hm) & Hf & Hpose);
    rewrite Hp, orb_true_r in Hf; [congruence|].
  specialize (Hpose Hj); rewrite H0 in Hpose.
  unfold saveWaypointToCSV; simpl.
  rewrite Hc, Hpose, Hi; simpl.
  destruct (CsvFile.opens (csv_file s)); simpl; rewrite ?Ha, ?Hc, ?Ho;
    (eexists; split; [rewrite <- !app_assoc; reflexivity|]);
    rewrite !published_markers_app, Hm; simpl; split; reflexivity.
Qed.

Lemma save_before_first_pose_records_origin_witness :
  exists s s', run atan2_ref [(t0, [JoyMsg joy_save])] (WaypointMaker_new csv_ok) = Some s /\
    run_once atan2_ref (Time.mk 1 0) [JoyMsg joy_save] s = Some s' /\
    CsvFile.contents (csv_file s') = append (CsvFile.contents (csv_file s)) (append "0,0,0" newline).
Proof.
  assert (Ha : atan2_ref 0%float 1%float = 0%float) by (vm_compute; reflexivity).
  assert (Hj : forall c, In c [JoyMsg joy_save] -> exists m, c = JoyMsg m)
    by (intros c [<- | []]; eexists; reflexivity).
  assert (Hjs : forall t c, In t [(t0, [JoyMsg joy_save])] -> In c (snd t) ->
                            exists m, c = JoyMsg m)
    by (intros t c [<- | []]; exact (Hj c)).
  destruct (run atan2_ref [(t0, [JoyMsg joy_save])] (WaypointMaker_new csv_ok)) as [s|] eqn:Er;
    [|vm_compute in Er; discriminate].
  destruct (run_once atan2_ref (Time.mk 1 0) [JoyMsg joy_save] s) as [s'|] eqn:E.
  - exists s, s'; split; [reflexivity | split; [exact E|]].
    destruct (save_before_first_pose_records_origin atan2_ref csv_ok _ s (Time.mk 1 0)
                [JoyMsg joy_save] s' Ha Er Hjs Hj eq_refl E) as (_ & new & _ & Hc & _).
    rewrite Hc; vm_compute in Er; injection Er as <-; reflexivity.
  - vm_compute in Er; injection Er as <-; vm_compute in E; discriminate.
Defined.


(** ** Further properties of the node *)

Lemma string_append_assoc (a b c : string) : append (append a b) c = append a (append b c).
Proof. induction a as [|ch a IH]; simpl; [reflexivity | rewrite IH; reflexivity]. Qed.

Lemma string_append_empty_r (a : string) : append a EmptyString = a.
Proof. induction a as [|ch a IH]; simpl; [reflexivity | rewrite IH; reflexivity]. Qed.

Lemma csv_text_app l1 l2 : csv_text (l1 ++ l2) = append (csv_text l1) (csv_text l2).
Proof.
  induction l1 as [|[[x y] yaw] l1 IH]; simpl; [reflexivity|].
  rewrite IH, string_append_assoc; reflexivity.
Qed.

Lemma spinOnce_pose inbox s s1 :
  spinOnce inbox s = Some s1 -> current_pose_ s1 = last_pose inbox (current_pose_ s).
Proof.
  revert s; induction inbox as [|c inbox IH]; intros s H; simpl in H.
  - injection H as <-; reflexivity.
  - destruct (callback c s) as [s0|] eqn:E; [|discriminate].
    rewrite (IH s0 H).
    destruct c as [m | m]; simpl in E |- *.
    + destruct (callback_frame (JoyMsg m) s s0 E) as (_ & _ & _ & _ & [Hp | [m' Hm']]);
        [rewrite Hp; reflexivity | discriminate].
    + injection E as <-; reflexivity.
Qed.

(** X1. After [spinOnce] the node holds the pose of the last [amcl_pose]
    message drained (its covariance ignored), or its former pose when none was
    drained; Joy messages never change it. *)
Theorem spinOnce_keeps_last_pose :
  forall inbox s s1,
    spinOnce inbox s = Some s1 -> current_pose_ s1 = last_pose inbox (current_pose_ s).
Proof. intros inbox s s1 H; exact (spinOnce_pose inbox s s1 H). Qed.


Lemma spinOnce_keeps_last_pose_witness :
  current_pose_
    (emit (ROS_INFO "Orientation: z = %f, w = %f" [0%float; 1%float])
       (emit (ROS_INFO "Position: x = %f, y = %f" [0%float; 1%float])
          (set_current_pose pose_0_1
             (emit (Publish_cmd_vel (Twist.mk (Vector3.mk 0.25 0 0) (Vector3.mk 0 0 0.5)))
                (set_save_waypoint true (WaypointMaker_new csv_ok))))))
  = pose_0_1.
Proof.
  exact (spinOnce_keeps_last_pose
           [JoyMsg joy_save; AmclPoseMsg (PoseWithCovarianceStamped.mk pose_0_1 [])]
           (WaypointMaker_new csv_ok) _ eq_refl).
Defined.

(** X2. The pose a cycle saves is the one held after all its callbacks ran: a
    pose message drained after the button press in the same cycle is the one
    recorded, both in the marker and in the CSV line. *)
Theorem run_once_saves_last_pose :
  forall atan2 now inbox s s',
    run_once atan2 now inbox s = Some s' ->
    let p := last_pose inbox (current_pose_ s) in
    let qz := Quaternion.z (Pose.orientation p) in
    let qw := Quaternion.w (Pose.orientation p) in
    (exists new, outputs s' = outputs s ++ new /\
       Forall (fun m => Marker.pose m = p) (published_markers new)) /\
    (CsvFile.contents (csv_file s') = CsvFile.contents (csv_file s) \/
     CsvFile.contents (csv_file s') =
       append (CsvFile.contents (csv_file s))
         (csv_line (Point.x (Pose.position p)) (Point.y (Pose.position p))
            (atan2 (2.0 * (qw * qz))%float (1.0 - 2.0 * (qz * qz))%float))).
Proof.
  intros atan2 now inbox s s' H p qz qw.
  destruct (run_once_cases atan2 now inbox s s' H) as (s1 & E & [[F ->] | (F & L & ->)]);
    destruct (spinOnce_frame _ _ _ E) as (Hc & _ & (new & Ho & Hm) & _);
    pose proof (spinOnce_pose _ _ _ E) as Hp.
  - split; [exists new; rewrite Hm; auto | left; rewrite Hc; reflexivity].
  - destruct (save_step_effects atan2 now s1) as (_ & _ & _ & (new' & Ho' & Hm') & _).
    split.
    + exists (new ++ new'); split; [rewrite Ho', Ho, app_assoc; reflexivity|].
      rewrite published_markers_app, Hm, Hm'; simpl.
      constructor; [exact Hp | constructor].
    + unfold saveWaypointToCSV; simpl; rewrite Hc.
      destruct (CsvFile.opens (csv_file s)); simpl; rewrite ?Hc;
        [right; subst p qz qw; rewrite <- Hp; reflexivity | left; reflexivity].
Qed.

Lemma run_once_saves_last_pose_witness :
  exists new, Forall (fun m => Marker.pose m = pose_0_1) (published_markers new) /\
              published_markers new <> [].
Proof.
  destruct (run_once atan2_ref t0
              [JoyMsg joy_save; AmclPoseMsg (PoseWithCovarianceStamped.mk pose_0_1 [])]
              (WaypointMaker_new csv_ok)) as [s'|] eqn:E;
    [|vm_compute in E; discriminate].
  destruct (run_once_saves_last_pose atan2_ref t0 _ _ s' E) as [(new & Ho & Hf) _].
  exists new; split; [exact Hf|].
  vm_compute in E; injection E as <-; simpl in Ho.
  rewrite <- Ho; intros Hc; vm_compute in Hc; discriminate.
Defined.

Lemma joyCallback_None_len joy_msg s :
  joyCallback joy_msg s = None <->
  (length (Joy.buttons joy_msg) <= 2 \/ length (Joy.axes joy_msg) <= 3)%nat.
Proof.
  unfold joyCallback.
  destruct (nth_error (Joy.buttons joy_msg) 2) as [b2|] eqn:Eb.
  - destruct (nth_error (Joy.axes joy_msg) 3) as [a3|] eqn:E3.
    + destruct (nth_error (Joy.axes joy_msg) 0) as [a0|] eqn:E0.
      * split; [destruct (b2 =? 1); discriminate|].
        intros [H | H]; apply nth_error_None in H; congruence.
      * apply nth_error_None in E0.
        assert (3 < length (Joy.axes joy_msg))%nat by (apply nth_error_Some; congruence).
        lia.
    + split; intros _; [right; apply nth_error_None; exact E3 | destruct (b2 =? 1); reflexivity].
  - split; intros _; [left; apply nth_error_None; exact Eb | reflexivity].
Qed.

(** X3. [joyCallback] indexes [buttons[2]], [axes[3]] and [axes[0]] with no
    bounds check: it is undefined exactly when the message has fewer than 3
    buttons or fewer than 4 axes. *)
Theorem joyCallback_undefined_iff_short :
  forall joy_msg s,
    joyCallback joy_msg s = None <->
    (length (Joy.buttons joy_msg) <= 2 \/ length (Joy.axes joy_msg) <= 3)%nat.
Proof. intros m s; exact (joyCallback_None_len m s). Qed.

Lemma published_cmd_vels_app os1 os2 :
  published_cmd_vels (os1 ++ os2) = published_cmd_vels os1 ++ published_cmd_vels os2.
Proof. induction os1 as [|[] os1 IH]; simpl; try rewrite IH; reflexivity. Qed.

Lemma callback_cmd_vels c s s1 :
  callback c s = Some s1 ->
  exists new, outputs s1 = outputs s ++ new /\
    published_cmd_vels new = map axes_twist (joy_msgs [c]).
Proof.
  destruct c as [m | m]; cbn [callback joy_msgs].
  - unfold joyCallback.
    destruct (nth_error (Joy.buttons m) 2) as [b2|]; [|discriminate].
    destruct (nth_error (Joy.axes m) 3) as [a3|] eqn:E3; [|destruct (b2 =? 1); discriminate].
    destruct (nth_error (Joy.axes m) 0) as [a0|] eqn:E0; [|destruct (b2 =? 1); discriminate].
    apply nth_error_nth with (d := 0%float) in E3, E0.
    intros H; destruct (b2 =? 1); injection H as <-; eexists;
      (split; [reflexivity|]); simpl; unfold axes_twist; rewrite E3, E0; reflexivity.
  - intros H; injection H as <-; eexists; split;
      [simpl; rewrite <- app_assoc; reflexivity | reflexivity].
Qed.

(** X4. Draining the queued callbacks publishes one velocity command per Joy
    message, in queue order, each carrying that message's [axes[3]] and
    [axes[0]]; pose messages publish none. *)
Theorem spinOnce_one_cmd_vel_per_joy :
  forall inbox s s1,
    spinOnce inbox s = Some s1 ->
    exists new, outputs s1 = outputs s ++ new /\
      published_cmd_vels new = map axes_twist (joy_msgs inbox).
Proof.
  induction inbox as [|c inbox IH]; intros s s1 H; simpl in H.
  - injection H as <-; exists []; rewrite app_nil_r; auto.
  - destruct (callback c s) as [s0|] eqn:E; [|discriminate].
    destruct (callback_cmd_vels c s s0 E) as (n0 & Ho & Hv).
    destruct (IH s0 s1 H) as (n1 & Ho' & Hv').
    exists (n0 ++ n1); split; [rewrite Ho', Ho, app_assoc; reflexivity|].
    rewrite published_cmd_vels_app, Hv, Hv'.
    destruct c; reflexivity.
Qed.


Lemma spinOnce_one_cmd_vel_per_joy_witness :
  exists new, published_cmd_vels new = [axes_twist joy_save; axes_twist joy_save].
Proof.
  destruct (spinOnce_one_cmd_vel_per_joy
              [JoyMsg joy_save; AmclPoseMsg pose_msg_0_1; JoyMsg joy_save]
              (WaypointMaker_new csv_ok) _ eq_refl) as (new & _ & Hv).
  exists new; exact Hv.
Defined.

Lemma spinOnce_path inbox s s1 :
  spinOnce inbox s = Some s1 -> csv_file_path_ s1 = csv_file_path_ s.
Proof.
  revert s; induction inbox as [|c inbox IH]; intros s H; simpl in H.
  - injection H as <-; reflexivity.
  - destruct (callback c s) as [s0|] eqn:E; [|discriminate].
    rewrite (IH s0 H).
    destruct c as [m | m]; simpl in E; [|injection E as <-; reflexivity].
    unfold joyCallback in E.
    destruct (nth_error (Joy.buttons m) 2) as [b2|]; [|discriminate].
    destruct (nth_error (Joy.axes m) 3); [|destruct (b2 =? 1); discriminate].
    destruct (nth_error (Joy.axes m) 0); [|destruct (b2 =? 1); discriminate].
    destruct (b2 =? 1); injection E as <-; reflexivity.
Qed.

Section Csv.

Variable atan2 : float -> float -> float.

Lemma run_once_csv now inbox s s' :
  run_once atan2 now inbox s = Some s' ->
  save_waypoint_ s' = false /\
  csv_file_path_ s' = csv_file_path_ s /\
  CsvFile.opens (csv_file s') = CsvFile.opens (csv_file s) /\
  exists new records, outputs s' = outputs s ++ new /\
    CsvFile.contents (csv_file s') = append (CsvFile.contents (csv_file s)) (csv_text records) /\
    length records =
      (if CsvFile.opens (csv_file s) then length (published_markers new) else 0%nat).
Proof.
  intros H.
  destruct (run_once_cases atan2 now inbox s s' H) as (s1 & E & [[F ->] | (F & L & ->)]);
    destruct (spinOnce_frame _ _ _ E) as (Hc & _ & (new & Ho & Hm) & _);
    pose proof (spinOnce_path _ _ _ E) as Hpath.
  - refine (conj F (conj Hpath (conj (f_equal CsvFile.opens Hc) _))).
    exists new, []; rewrite Hm, Hc; simpl; rewrite string_append_empty_r.
    destruct (CsvFile.opens (csv_file s)); auto.
  - destruct (save_step_effects atan2 now s1) as (Hs & _ & _ & (new' & Ho' & Hm') & _).
    refine (conj Hs (conj _ (conj _ _))).
    + unfold saveWaypointToCSV; simpl.
      destruct (CsvFile.opens (csv_file s1)); exact Hpath.
    + rewrite <- Hc; unfold saveWaypointToCSV; simpl.
      destruct (CsvFile.opens (csv_file s1)) eqn:O; simpl; congruence.
    + exists (new ++ new').
      rewrite published_markers_app, Hm, Hm', app_assoc, <- Ho, <- Ho', <- Hc; simpl.
      unfold saveWaypointToCSV; simpl.
      destruct (CsvFile.opens (csv_file s1)) eqn:O; simpl; rewrite ?O.
      * eexists [(_, _, _)]; split; [reflexivity|].
        simpl; rewrite string_append_empty_r; split; reflexivity.
      * exists []; simpl; rewrite string_append_empty_r; auto.
Qed.

Lemma run_csv ticks s s' :
  run atan2 ticks s = Some s' ->
  csv_file_path_ s' = csv_file_path_ s /\
  CsvFile.opens (csv_file s') = CsvFile.opens (csv_file s) /\
  exists new records, outputs s' = outputs s ++ new /\
    CsvFile.contents (csv_file s') = append (CsvFile.contents (csv_file s)) (csv_text records) /\
    length records =
      (if CsvFile.opens (csv_file s) then length (published_markers new) else 0%nat).
Proof.
  revert s; induction ticks as [|[now inbox] ticks IH]; intros s H; simpl in H.
  - injection H as <-; split; [reflexivity | split; [reflexivity|]].
    exists [], []; rewrite app_nil_r; simpl; rewrite string_append_empty_r.
    destruct (CsvFile.opens (csv_file s)); auto.
  - destruct (run_once atan2 now inbox s) as [s0|] eqn:E; [|discriminate].
    destruct (run_once_csv now inbox s s0 E) as (_ & Hp0 & Hf0 & n0 & r0 & Ho0 & Hc0 & Hl0).
    destruct (IH s0 H) as (Hp1 & Hf1 & n1 & r1 & Ho1 & Hc1 & Hl1).
    split; [congruence | split; [congruence|]].
    exists (n0 ++ n1), (r0 ++ r1).
    split; [rewrite Ho1, Ho0, app_assoc; reflexivity|].
    split; [rewrite Hc1, Hc0, csv_text_app, string_append_assoc; reflexivity|].
    rewrite length_app, published_markers_app, length_app, Hl0, Hl1, Hf0.
    destruct (CsvFile.opens (csv_file s)); reflexivity.
Qed.

End Csv.

(** X5. The node only ever appends to the CSV file: over any run its former
    contents stay a prefix of its contents, and the file path never changes. *)
Theorem run_csv_append_only :
  forall atan2 ticks s s',
    run atan2 ticks s = Some s' ->
    csv_file_path_ s' = csv_file_path_ s /\
    exists suffix, CsvFile.contents (csv_file s') = append (CsvFile.contents (csv_file s)) suffix.
Proof.
  intros atan2 ticks s s' H.
  destruct (run_csv atan2 ticks s s' H) as (Hp & _ & _ & records & _ & Hc & _).
  split; [exact Hp | exists (csv_text records); exact Hc].
Qed.

Lemma run_csv_append_only_witness :
  exists s', run atan2_ref [(t0, [JoyMsg joy_save])] (WaypointMaker_new csv_ok) = Some s' /\
    csv_file_path_ s' = csv_file_path_ (WaypointMaker_new csv_ok) /\
    exists suffix, CsvFile.contents (csv_file s') =
                   append (CsvFile.contents (csv_file (WaypointMaker_new csv_ok))) suffix.
Proof.
  destruct (run atan2_ref [(t0, [JoyMsg joy_save])] (WaypointMaker_new csv_ok)) as [s'|] eqn:E;
    [|vm_compute in E; discriminate].
  exists s'; split; [reflexivity|].
  exact (run_csv_append_only atan2_ref _ _ s' E).
Defined.

(** X6. Over any run, the text appended to the CSV file is a sequence of
    [x,y,yaw] lines, one per published marker when the file opens and none when
    it does not. *)
Theorem run_csv_one_line_per_marker :
  forall atan2 ticks s s',
    run atan2 ticks s = Some s' ->
    exists new records, outputs s' = outputs s ++ new /\
      CsvFile.contents (csv_file s') = append (CsvFile.contents (csv_file s)) (csv_text records) /\
      length records =
        (if CsvFile.opens (csv_file s) then length (published_markers new) else 0%nat).
Proof.
  intros atan2 ticks s s' H.
  destruct (run_csv atan2 ticks s s' H) as (_ & _ & H'); exact H'.
Qed.

Lemma run_csv_one_line_per_marker_witness :
  exists records : list (float * float * float), length records = 2%nat.
Proof.
  destruct two_held_cycles_run as (s' & Hrun & Hlen).
  destruct (run_csv_one_line_per_marker atan2_ref _ _ s' Hrun) as (new & records & Ho & _ & Hl).
  exists records; rewrite Hl; simpl; rewrite Ho in Hlen; exact Hlen.
Defined.

(** X7. Every completed cycle ends with the save flag cleared, so a run of one
    or more cycles leaves no save pending. *)
Theorem run_clears_save_flag :
  forall atan2 ticks s s',
    run atan2 ticks s = Some s' -> ticks <> [] -> save_waypoint_ s' = false.
Proof.
  intros atan2 ticks; induction ticks as [|[now inbox] ticks IH]; intros s s' H Hne;
    [contradiction Hne; reflexivity|].
  simpl in H; destruct (run_once atan2 now inbox s) as [s0|] eqn:E; [|discriminate].
  destruct ticks as [|t ticks].
  - simpl in H; injection H as <-; exact (proj1 (run_once_csv atan2 now inbox s s0 E)).
  - apply (IH s0 s' H); discriminate.
Qed.

Lemma run_clears_save_flag_witness :
  exists s', run atan2_ref [(t0, [JoyMsg joy_save])] (WaypointMaker_new csv_ok) = Some s' /\
             save_waypoint_ s' = false.
Proof.
  destruct (run atan2_ref [(t0, [JoyMsg joy_save])] (WaypointMaker_new csv_ok)) as [s'|] eqn:E;
    [|vm_compute in E; discriminate].
  exists s'; split; [reflexivity|].
  exact (run_clears_save_flag atan2_ref _ _ s' E ltac:(discriminate)).
Defined.

(** X8. [waypoint_id_++] is a signed [int] increment: once the id has reached
    [INT_MAX], the next cycle that saves has undefined behaviour. *)
Theorem saving_cycle_at_INT_MAX_undefined :
  forall atan2 now inbox s s1,
    spinOnce inbox s = Some s1 -> save_waypoint_ s1 = true ->
    waypoint_id_ s = INT_MAX ->
    run_once atan2 now inbox s = None.
Proof.
  intros atan2 now inbox s s1 H1 H2 H3.
  destruct (spinOnce_frame _ _ _ H1) as (_ & Hi & _).
  apply (run_once_overflow atan2 now inbox s s1 H1 H2); lia.
Qed.

Lemma saving_cycle_at_INT_MAX_undefined_witness :
  run_once atan2_ref t0 [JoyMsg joy_save] (set_waypoint_id INT_MAX (WaypointMaker_new csv_ok)) = None.
Proof.
  exact (saving_cycle_at_INT_MAX_undefined atan2_ref t0 [JoyMsg joy_save]
           (set_waypoint_id INT_MAX (WaypointMaker_new csv_ok)) _ eq_refl eq_refl eq_refl).
Defined.

(** X9. Callbacks never save: draining the queue leaves the CSV file and
    [waypoint_id_] as they were, and its only outputs are velocity commands and
    info logs (no marker, no error). *)
Theorem spinOnce_never_saves :
  forall inbox s s1,
    spinOnce inbox s = Some s1 ->
    csv_file s1 = csv_file s /\ waypoint_id_ s1 = waypoint_id_ s /\
    exists new, outputs s1 = outputs s ++ new /\ forallb callback_output new = true.
Proof.
  intros inbox s s1 H.
  destruct (spinOnce_frame _ _ _ H) as (Hc & Hi & _).
  exact (conj Hc (conj Hi (spinOnce_outputs _ _ _ H))).
Qed.

Lemma spinOnce_never_saves_witness :
  exists s1, spinOnce [JoyMsg joy_save; AmclPoseMsg pose_msg_0_1] (WaypointMaker_new csv_ok) = Some s1 /\
    csv_file s1 = csv_ok /\ waypoint_id_ s1 = 0 /\
    exists new, outputs s1 = [] ++ new /\ forallb callback_output new = true.
Proof.
  destruct (spinOnce [JoyMsg joy_save; AmclPoseMsg pose_msg_0_1] (WaypointMaker_new csv_ok))
    as [s1|] eqn:E; [|vm_compute in E; discriminate].
  exists s1; split; [reflexivity|].
  exact (spinOnce_never_saves _ _ s1 E).
Defined.

Lemma joyCallback_None_short m s : joyCallback m s = None <-> short_joy m = true.
Proof.
  rewrite joyCallback_None_len.
  unfold short_joy; rewrite orb_true_iff, !Nat.leb_le; reflexivity.
Qed.

(** X10. [ros::spinOnce()] runs the queued callbacks in order, so a single Joy
    message with fewer than 3 buttons or fewer than 4 axes anywhere in the
    queue makes the whole drain undefined, and nothing else does. *)
Theorem spinOnce_undefined_iff_short_joy :
  forall inbox s, spinOnce inbox s = None <-> has_short_joy inbox = true.
Proof.
  unfold has_short_joy.
  induction inbox as [|c inbox IH]; intros s; simpl; [split; discriminate|].
  destruct c as [m | m]; cbn [callback].
  - destruct (joyCallback m s) as [s0|] eqn:E.
    + assert (short_joy m = false) as ->.
      { destruct (short_joy m) eqn:Sh; [|reflexivity].
        apply (joyCallback_None_short m s) in Sh; congruence. }
      exact (IH s0).
    + apply (joyCallback_None_short m s) in E; rewrite E; split; reflexivity.
  - exact (IH _).
Qed.

Section Stamps.

Variable atan2 : float -> float -> float.

Lemma run_once_stamps now inbox s s' :
  run_once atan2 now inbox s = Some s' ->
  exists new, outputs s' = outputs s ++ new /\
    (map Marker.stamp (published_markers new) = [] \/
     map Marker.stamp (published_markers new) = [now]).
Proof.
  intros H.
  destruct (run_once_cases atan2 now inbox s s' H) as (s1 & E & [[F ->] | (F & L & ->)]);
    destruct (spinOnce_frame _ _ _ E) as (_ & _ & (new & Ho & Hm) & _).
  - exists new; rewrite Hm; auto.
  - destruct (save_step_effects atan2 now s1) as (_ & _ & _ & (new' & Ho' & Hm') & _).
    exists (new ++ new'); split; [rewrite Ho', Ho, app_assoc; reflexivity|].
    rewrite published_markers_app, Hm, Hm'; right; reflexivity.
Qed.

Lemma run_errors_step now inbox s s' :
  run_once atan2 now inbox s = Some s' ->
  CsvFile.opens (csv_file s') = CsvFile.opens (csv_file s) /\
  exists new, outputs s' = outputs s ++ new /\
    error_count new =
      (if CsvFile.opens (csv_file s) then 0%nat else length (published_markers new)).
Proof.
  intros H.
  destruct (run_once_cases atan2 now inbox s s' H) as (s1 & E & [[F ->] | (F & L & ->)]);
    destruct (spinOnce_frame _ _ _ E) as (Hc & _ & _);
    destruct (spinOnce_outputs _ _ _ E) as (new & Ho & Hf);
    destruct (callback_outputs_no_error new Hf) as [He Hm].
  - split; [rewrite Hc; reflexivity|].
    exists new; split; [exact Ho|]; rewrite He, Hm.
    destruct (CsvFile.opens (csv_file s)); reflexivity.
  - rewrite <- Hc; unfold saveWaypointToCSV; simpl.
    destruct (CsvFile.opens (csv_file s1)) eqn:O; simpl; rewrite ?O;
      (split; [reflexivity|]);
      (eexists; split; [rewrite Ho, <- !app_assoc; reflexivity|]);
      rewrite error_count_app, ?published_markers_app, He, ?Hm; reflexivity.
Qed.

End Stamps.

(** X11. Each marker is stamped with [ros::Time::now()] of the cycle that
    publishes it, and a cycle publishes at most one: over a run, the stamps of
    the published markers are a subsequence of the cycles' times, in order. *)
Theorem run_marker_stamps :
  forall atan2 ticks s s',
    run atan2 ticks s = Some s' ->
    exists new, outputs s' = outputs s ++ new /\
      subseq (map Marker.stamp (published_markers new)) (map fst ticks).
Proof.
  intros atan2 ticks; induction ticks as [|[now inbox] ticks IH]; intros s s' H; simpl in H.
  - injection H as <-; exists []; rewrite app_nil_r; split; reflexivity.
  - destruct (run_once atan2 now inbox s) as [s0|] eqn:E; [|discriminate].
    destruct (run_once_stamps atan2 now inbox s s0 E) as (n0 & Ho0 & Hs0).
    destruct (IH s0 s' H) as (n1 & Ho1 & Hs1).
    exists (n0 ++ n1); split; [rewrite Ho1, Ho0, app_assoc; reflexivity|].
    rewrite published_markers_app, map_app; simpl.
    destruct Hs0 as [-> | ->]; simpl.
    + left; exact Hs1.
    + right; split; [reflexivity | exact Hs1].
Qed.

Lemma run_marker_stamps_witness :
  exists s', run atan2_ref [(t0, [JoyMsg joy_save]); (Time.mk 1 0, [])]
               (WaypointMaker_new csv_ok) = Some s' /\
    exists new, outputs s' = outputs (WaypointMaker_new csv_ok) ++ new /\
      subseq (map Marker.stamp (published_markers new)) [t0; Time.mk 1 0].
Proof.
  destruct (run atan2_ref [(t0, [JoyMsg joy_save]); (Time.mk 1 0, [])] (WaypointMaker_new csv_ok))
    as [s'|] eqn:E; [|vm_compute in E; discriminate].
  exists s'; split; [reflexivity|].
  exact (run_marker_stamps atan2_ref _ _ s' E).
Defined.

(** X12. [ROS_ERROR] is logged only by a save whose file does not open: over a
    run with an openable file no error is logged, and with an unopenable one
    exactly one per published marker. *)
Theorem run_errors_per_failed_save :
  forall atan2 ticks s s',
    run atan2 ticks s = Some s' ->
    exists new, outputs s' = outputs s ++ new /\
      error_count new =
        (if CsvFile.opens (csv_file s) then 0%nat else length (published_markers new)).
Proof.
  intros atan2 ticks; induction ticks as [|[now inbox] ticks IH]; intros s s' H; simpl in H.
  - injection H as <-; exists []; rewrite app_nil_r; split; [reflexivity|].
    destruct (CsvFile.opens (csv_file s)); reflexivity.
  - destruct (run_once atan2 now inbox s) as [s0|] eqn:E; [|discriminate].
    destruct (run_errors_step atan2 now inbox s s0 E) as (Hf0 & n0 & Ho0 & He0).
    destruct (IH s0 s' H) as (n1 & Ho1 & He1).
    exists (n0 ++ n1); split; [rewrite Ho1, Ho0, app_assoc; reflexivity|].
    rewrite error_count_app, published_markers_app, length_app, He0, He1, Hf0.
    destruct (CsvFile.opens (csv_file s)); reflexivity.
Qed.

Lemma run_errors_per_failed_save_witness :
  exists s', run atan2_ref [(t0, [JoyMsg joy_save]); (t0, [JoyMsg joy_save])]
               (WaypointMaker_new csv_unopenable) = Some s' /\
    exists new, outputs s' = outputs (WaypointMaker_new csv_unopenable) ++ new /\
      error_count new = length (published_markers new).
Proof.
  destruct (run atan2_ref [(t0, [JoyMsg joy_save]); (t0, [JoyMsg joy_save])]
              (WaypointMaker_new csv_unopenable)) as [s'|] eqn:E;
    [|vm_compute in E; discriminate].
  exists s'; split; [reflexivity|].
  exact (run_errors_per_failed_save atan2_ref _ _ s' E).
Defined.
